(** * FreeOrion content checksums: [util/CheckSums.h] and the hull registry of
    [universe/ShipHull.h]

    The checksum combinator folds values of many shapes into one [uint32_t]
    accumulator.  The accumulator and every C++ integer are modelled as [Z]
    with the wrap-around of each conversion written out; a call whose C++
    behaviour is undefined (signed overflow) yields [None]. *)

From Stdlib Require Import ZArith List String Bool Lia Permutation.
Import ListNotations.
Local Open Scope Z_scope.
Set Warnings "-register-all".

(** ** Fixed-width integers *)

(** The integer types the templates are instantiated with, by bit width:
    [int8_t]/[uint8_t], [int16_t]/[uint16_t], [int]/[uint32_t] and
    [int64_t]/[uint64_t] ([int] is 32 bits wide on every supported platform). *)
Inductive IntWidth : Set := W8 | W16 | W32 | W64.

Definition bits (T : IntWidth) : Z :=
  match T with W8 => 8 | W16 => 16 | W32 => 32 | W64 => 64 end.

Definition signed_min (T : IntWidth) : Z := - 2 ^ (bits T - 1).
Definition signed_max (T : IntWidth) : Z := 2 ^ (bits T - 1) - 1.
Definition unsigned_max (T : IntWidth) : Z := 2 ^ bits T - 1.

Definition in_signed (T : IntWidth) (t : Z) : Prop :=
  signed_min T <= t <= signed_max T.
Definition in_unsigned (T : IntWidth) (t : Z) : Prop :=
  0 <= t <= unsigned_max T.

Definition in_signedb (T : IntWidth) (t : Z) : bool :=
  (signed_min T <=? t) && (t <=? signed_max T).

(** Integral promotion: an argument narrower than [int] is converted to [int]
    before an overload of [std::abs] is chosen. *)
Definition promote (T : IntWidth) : IntWidth :=
  match T with W8 | W16 => W32 | W32 => W32 | W64 => W64 end.

(** [static_cast<uint32_t>(x)], and the result type of [x + y] when one
    operand is a [std::size_t]. *)
Definition to_uint32 (x : Z) : Z := x mod 2 ^ 32.
Definition to_size_t (x : Z) : Z := x mod 2 ^ 64.

(** [std::abs(t)] for a signed [t] of type [T]: computed in the promoted type,
    where the negation of the minimum overflows. *)
Definition std_abs (T : IntWidth) (t : Z) : option Z :=
  if t =? signed_min (promote T) then None else Some (Z.abs t).

(** [a + b] on two [int]s. *)
Definition int_add (a b : Z) : option Z :=
  if in_signedb W32 (a + b) then Some (a + b) else None.

(** A small error monad for the calls that may be undefined. *)
Definition bind {A B : Type} (m : option A) (f : A -> option B) : option B :=
  match m with Some a => f a | None => None end.

Notation "x <- m ;; k" := (bind m (fun x => k))
  (at level 61, m at next level, right associativity).

(** Left fold of a fallible step over a list, threading the accumulator. *)
Fixpoint foldM {A S : Type} (step : S -> A -> option S) (l : list A) (s : S)
  : option S :=
  match l with
  | [] => Some s
  | a :: r => s' <- step s a ;; foldM step r s'
  end.

(** ** [namespace CheckSums] *)

Definition CHECKSUM_MODULUS : Z := 10000000.

(** [template <T> CheckSumCombine(uint32_t& sum, T t)] for [is_signed_v<T>]:
    [sum += static_cast<uint32_t>(std::abs(t)); sum %= CHECKSUM_MODULUS;] *)
Definition CheckSumCombine_signed (T : IntWidth) (sum t : Z) : option Z :=
  a <- std_abs T t ;;
  Some (to_uint32 (sum + to_uint32 a) mod CHECKSUM_MODULUS).

(** The same template for [is_unsigned_v<T>]:
    [sum += static_cast<uint32_t>(t); sum %= CHECKSUM_MODULUS;] *)
Definition CheckSumCombine_unsigned (T : IntWidth) (sum t : Z) : Z :=
  to_uint32 (sum + to_uint32 t) mod CHECKSUM_MODULUS.

(** Classes that have a [GetCheckSum] method; [checksum] is what the method
    returns: [sum += c.GetCheckSum(); sum %= CHECKSUM_MODULUS;] *)
Definition CheckSumCombine_class (sum checksum : Z) : Z :=
  to_uint32 (sum + checksum) mod CHECKSUM_MODULUS.

(** Enums: [CheckSumCombine(sum, static_cast<int>(t) + 10);], which selects
    the signed overload at [T = int]. *)
Definition CheckSumCombine_enum (sum ordinal : Z) : option Z :=
  i <- int_add ordinal 10 ;; CheckSumCombine_signed W32 sum i.

(** The last two statements of the container overload:
    [sum += c.size(); sum %= CHECKSUM_MODULUS;] *)
Definition add_size (sum : Z) (size : nat) : Z :=
  to_uint32 (to_size_t (sum + Z.of_nat size)) mod CHECKSUM_MODULUS.

(** [FO_ENUM((ShipSlotType), ...)] of [ShipHull.h]. *)
Inductive ShipSlotType : Set :=
| INVALID_SHIP_SLOT_TYPE
| SL_EXTERNAL
| SL_INTERNAL
| SL_CORE
| NUM_SHIP_SLOT_TYPES.

Definition ShipSlotType_ordinal (t : ShipSlotType) : Z :=
  match t with
  | INVALID_SHIP_SLOT_TYPE => -1
  | SL_EXTERNAL => 0
  | SL_INTERNAL => 1
  | SL_CORE => 2
  | NUM_SHIP_SLOT_TYPES => 3
  end.

(** The three pointer overloads: [const T*], [std::shared_ptr<T>] and
    [std::unique_ptr<T>]. *)
Inductive PtrKind : Set := RawPtr | SharedPtr | UniquePtr.

(** A value handed to [CheckSumCombine], tagged with the overload that the
    compiler selects for its static type.  A composite is represented by the
    result of its [GetCheckSum()], an absent pointer by [None]. *)
Inductive Value : Type :=
| VSigned (T : IntWidth) (t : Z)
| VUnsigned (T : IntWidth) (t : Z)
| VClass (checksum : Z)
| VEnum (ordinal : Z)
| VPointer (k : PtrKind) (p : option Value)
| VPair (first second : Value)
| VContainer (c : list Value)
| VString (s : string).

(** Structural induction that also reaches the pointee of a pointer and the
    elements of a container. *)
Section Value_nested_ind.
Variable P : Value -> Prop.
Hypothesis Hsigned : forall T t, P (VSigned T t).
Hypothesis Hunsigned : forall T t, P (VUnsigned T t).
Hypothesis Hclass : forall checksum, P (VClass checksum).
Hypothesis Henum : forall ordinal, P (VEnum ordinal).
Hypothesis Hnull : forall k, P (VPointer k None).
Hypothesis Hpointee : forall k x, P x -> P (VPointer k (Some x)).
Hypothesis Hpair : forall a b, P a -> P b -> P (VPair a b).
Hypothesis Hcontainer : forall c, Forall P c -> P (VContainer c).
Hypothesis Hstring : forall s, P (VString s).

Fixpoint Value_nested_ind (v : Value) : P v :=
  match v with
  | VSigned T t => Hsigned T t
  | VUnsigned T t => Hunsigned T t
  | VClass checksum => Hclass checksum
  | VEnum ordinal => Henum ordinal
  | VPointer k None => Hnull k
  | VPointer k (Some x) => Hpointee k x (Value_nested_ind x)
  | VPair a b => Hpair a b (Value_nested_ind a) (Value_nested_ind b)
  | VContainer c =>
      Hcontainer c
        ((fix elements (l : list Value) : Forall P l :=
            match l with
            | [] => Forall_nil P
            | x :: r => Forall_cons x (Value_nested_ind x) (elements r)
            end) c)
  | VString s => Hstring s
  end.
End Value_nested_ind.

Section Combinator.

(** [CheckSumCombine(uint32_t& sum, const std::string& c)] is declared in
    [CheckSums.h] and defined in [CheckSums.cpp]; it is taken as given. *)
Variable CheckSumCombine_string : Z -> string -> Z.

Fixpoint CheckSumCombine (sum : Z) (v : Value) {struct v} : option Z :=
  match v with
  | VSigned T t => CheckSumCombine_signed T sum t
  | VUnsigned T t => Some (CheckSumCombine_unsigned T sum t)
  | VClass checksum => Some (CheckSumCombine_class sum checksum)
  | VEnum ordinal => CheckSumCombine_enum sum ordinal
  | VPointer _ p =>
      match p with
      | Some x => CheckSumCombine sum x
      | None => Some sum
      end
  | VPair first second =>
      sum1 <- CheckSumCombine sum first ;;
      CheckSumCombine sum1 second
  | VContainer c =>
      sum' <- (fix loop (l : list Value) (acc : Z) {struct l} : option Z :=
                 match l with
                 | [] => Some acc
                 | t :: r => acc' <- CheckSumCombine acc t ;; loop r acc'
                 end) c sum ;;
      Some (add_size sum' (List.length c))
  | VString s => Some (CheckSumCombine_string sum s)
  end.

(** The body of the range-based [for] of the container overload. *)
Definition combine_each (c : list Value) (sum : Z) : option Z :=
  foldM CheckSumCombine c sum.

(** [defined v]: combining [v] stays within defined behaviour, i.e. no signed
    integer in [v] is the minimum of the type [std::abs] is computed in and no
    enum ordinal overflows when 10 is added. *)
Fixpoint defined (v : Value) : bool :=
  match v with
  | VSigned T t => negb (t =? signed_min (promote T))
  | VEnum ordinal =>
      in_signedb W32 (ordinal + 10) && negb (ordinal + 10 =? signed_min W32)
  | VPointer _ p => match p with Some x => defined x | None => true end
  | VPair first second => defined first && defined second
  | VContainer c => forallb defined c
  | VUnsigned _ _ | VClass _ | VString _ => true
  end.

(** [header_overload v]: every overload selected while combining [v] is one
    of those defined in [CheckSums.h] itself (integers, classes with
    [GetCheckSum], enums, pointers, pairs, containers). *)
Fixpoint header_overload (v : Value) : bool :=
  match v with
  | VString _ => false
  | VPointer _ p => match p with Some x => header_overload x | None => true end
  | VPair first second => header_overload first && header_overload second
  | VContainer c => forallb header_overload c
  | VSigned _ _ | VUnsigned _ _ | VClass _ | VEnum _ => true
  end.

Definition in_accumulator_range (sum : Z) : Prop :=
  0 <= sum < CHECKSUM_MODULUS.

(** ** [class ShipHullManager] *)

(** [ShipHull] and its [GetCheckSum() const -> uint32_t]: the class is
    declared in [ShipHull.h], the accessor is defined in [ShipHull.cpp]. *)
Variable ShipHull : Type.
Variable ShipHull_GetCheckSum : ShipHull -> Z.

(** [std::map<std::string, std::unique_ptr<ShipHull>, std::less<>>]: the
    entries in key iteration order; a null [unique_ptr] is [None]. *)
Definition container_type : Type := list (string * option ShipHull).

(** Modelled from the spec: [Pending::Pending<T>] of [util/Pending.h], a
    single-assignment future that yields a completed keyed collection exactly
    once; it is represented by the collection it yields. *)
Definition Pending (T : Type) : Type := T.

Record ShipHullManager : Type := mkShipHullManager {
  m_pending_ship_hulls : option (Pending container_type);
  m_hulls : container_type
}.

(** [container_type::const_iterator], as a position in iteration order. *)
Definition iterator : Set := nat.

(** Modelled from the spec: [ShipHullManager::SetShipHulls] of
    [ShipHull.cpp]; attaches the future, replacing any future attached
    before, and leaves the stored content alone. *)
Definition SetShipHulls (pending_ship_hulls : Pending container_type)
    (m : ShipHullManager) : ShipHullManager :=
  {| m_pending_ship_hulls := Some pending_ship_hulls; m_hulls := m_hulls m |}.

(** Modelled from the spec: [ShipHullManager::CheckPendingShipHulls] of
    [ShipHull.cpp]; if a future is attached it is resolved, the resolved
    collection fully replaces the content and the pending marker is
    discarded; otherwise nothing changes. *)
Definition CheckPendingShipHulls (m : ShipHullManager) : ShipHullManager :=
  match m_pending_ship_hulls m with
  | Some resolved => {| m_pending_ship_hulls := None; m_hulls := resolved |}
  | None => m
  end.

(** Modelled from the spec: the lookup inside [GetShipHull];
    [m_hulls.find(name)], then [it->second.get()] or [nullptr]. *)
Fixpoint find (name : string) (c : container_type) : option ShipHull :=
  match c with
  | [] => None
  | (key, hull) :: r => if String.eqb key name then hull else find name r
  end.

(** Modelled from the spec: [ShipHullManager::GetShipHull] of [ShipHull.cpp];
    resolves pending state first, then returns a non-owning reference to the
    record or absent. *)
Definition GetShipHull (name : string) (m : ShipHullManager)
  : option ShipHull * ShipHullManager :=
  let m' := CheckPendingShipHulls m in (find name (m_hulls m'), m').

(** Modelled from the spec: [ShipHullManager::begin] of [ShipHull.cpp]. *)
Definition begin (m : ShipHullManager) : iterator * ShipHullManager :=
  let m' := CheckPendingShipHulls m in (O, m').

(** Modelled from the spec: [ShipHullManager::end] of [ShipHull.cpp]. *)
Definition end_ (m : ShipHullManager) : iterator * ShipHullManager :=
  let m' := CheckPendingShipHulls m in (List.length (m_hulls m'), m').

(** Modelled from the spec: [ShipHullManager::size] of [ShipHull.cpp]. *)
Definition size (m : ShipHullManager) : nat * ShipHullManager :=
  let m' := CheckPendingShipHulls m in (List.length (m_hulls m'), m').

(** The pair overload at [std::pair<const std::string,
    std::unique_ptr<ShipHull>>]: the string overload on [first], then the
    [unique_ptr] overload on [second], which reaches the class overload. *)
Definition CheckSumCombine_entry (sum : Z) (e : string * option ShipHull) : Z :=
  let sum1 := CheckSumCombine_string sum (fst e) in
  match snd e with
  | Some hull => CheckSumCombine_class sum1 (ShipHull_GetCheckSum hull)
  | None => sum1
  end.

(** Modelled from the spec: [ShipHullManager::GetCheckSum] of
    [ShipHull.cpp]; resolves pending state first, folds every entry through
    the combinator in iteration order starting from 0, then folds in the
    entry count (a [std::size_t], through the unsigned overload). *)
Definition GetCheckSum (m : ShipHullManager) : Z * ShipHullManager :=
  let m' := CheckPendingShipHulls m in
  let retval := fold_left CheckSumCombine_entry (m_hulls m') 0 in
  (CheckSumCombine_unsigned W64 retval (Z.of_nat (List.length (m_hulls m'))),
   m').

(** The registry entry and the whole registry as values of the combinator. *)
Definition entry_value (e : string * option ShipHull) : Value :=
  VPair (VString (fst e))
        (VPointer UniquePtr
           (option_map (fun hull => VClass (ShipHull_GetCheckSum hull))
                       (snd e))).

Definition registry_value (c : container_type) : Value :=
  VContainer (map entry_value c).

(** The query operations of the registry and what they answer. *)
Inductive Query : Type :=
| QGetShipHull (name : string)
| QBegin
| QEnd
| QSize
| QGetCheckSum.

Inductive Answer : Type :=
| AHull (hull : option ShipHull)
| AIterator (it : iterator)
| ASize (n : nat)
| ACheckSum (checksum : Z).

Definition query (q : Query) (m : ShipHullManager) : Answer * ShipHullManager :=
  match q with
  | QGetShipHull name => let (r, m') := GetShipHull name m in (AHull r, m')
  | QBegin => let (r, m') := begin m in (AIterator r, m')
  | QEnd => let (r, m') := end_ m in (AIterator r, m')
  | QSize => let (r, m') := size m in (ASize r, m')
  | QGetCheckSum => let (r, m') := GetCheckSum m in (ACheckSum r, m')
  end.

(** ** The wrap-free range of the accumulator *)

(** [CHECKSUM_MODULUS] is chosen well below [UINT_MAX]: a reduced accumulator
    plus an addend of at most [2^32 - CHECKSUM_MODULUS] still fits 32 bits. *)
Definition WRAP_FREE_MAX : Z := 2 ^ 32 - CHECKSUM_MODULUS.

(** What a value adds to the accumulator when nothing wraps: the magnitudes
    of its integers, the checksums of its classes, its enum ordinals plus 10
    and the sizes of its containers. *)
Fixpoint contribution (v : Value) : Z :=
  match v with
  | VSigned _ t => Z.abs t
  | VUnsigned _ t => t
  | VClass checksum => checksum
  | VEnum ordinal => Z.abs (ordinal + 10)
  | VPointer _ p => match p with Some x => contribution x | None => 0 end
  | VPair first second => contribution first + contribution second
  | VContainer c =>
      fold_right Z.add 0 (map contribution c) + Z.of_nat (List.length c)
  | VString _ => 0
  end.

(** [wrap_free v]: every single addend met while combining [v] (integer
    magnitude, class checksum, container size) is at most [WRAP_FREE_MAX],
    and only overloads of the header are involved. *)
Fixpoint wrap_free (v : Value) : bool :=
  match v with
  | VSigned _ t => Z.abs t <=? WRAP_FREE_MAX
  | VUnsigned _ t => (0 <=? t) && (t <=? WRAP_FREE_MAX)
  | VClass checksum => (0 <=? checksum) && (checksum <=? WRAP_FREE_MAX)
  | VEnum _ => true
  | VPointer _ p => match p with Some x => wrap_free x | None => true end
  | VPair first second => wrap_free first && wrap_free second
  | VContainer c =>
      forallb wrap_free c && (Z.of_nat (List.length c) <=? WRAP_FREE_MAX)
  | VString _ => false
  end.

(** ** [class ShipHull] *)

(** [ShipHull::HasTag]: [std::any_of] over [m_tags] with [t == tag]. *)
Definition HasTag (m_tags : list string) (tag : string) : bool :=
  existsb (fun t => String.eqb t tag) m_tags.

(** ** Sample inputs *)

(** A stand-in for the string overload, used where a concrete run needs one. *)
Definition sample_string_overload (sum : Z) (s : string) : Z :=
  (sum + Z.of_nat (String.length s)) mod CHECKSUM_MODULUS.

(** One value through every overload of the header: a container of a pair of
    a negative [int] and a slot type, an absent raw pointer, a shared pointer
    to a class and a 64-bit unsigned integer. *)
Definition sample_value : Value :=
  VContainer
    [ VPair (VSigned W32 (-7)) (VEnum (ShipSlotType_ordinal SL_CORE));
      VPointer RawPtr None;
      VPointer SharedPtr (Some (VClass 123));
      VUnsigned W64 1099511627776 ].

(** ** Arithmetic of the conversions *)

Ltac unfold_ints :=
  unfold in_accumulator_range, CHECKSUM_MODULUS, to_uint32, to_size_t in *;
  change (2 ^ 32) with 4294967296 in *;
  change (2 ^ 64) with 18446744073709551616 in *.

Lemma reduced_in_range (x : Z) :
  in_accumulator_range (x mod CHECKSUM_MODULUS).
Proof. unfold_ints. apply Z.mod_pos_bound. lia. Qed.

Lemma to_uint32_bounds (x : Z) : 0 <= to_uint32 x < 2 ^ 32.
Proof. unfold_ints. apply Z.mod_pos_bound. lia. Qed.

Lemma to_uint32_small (x : Z) : 0 <= x < 2 ^ 32 -> to_uint32 x = x.
Proof. unfold_ints. intros Hx. apply Z.mod_small. lia. Qed.

Lemma to_uint32_of_size_t (x : Z) : to_uint32 (to_size_t x) = to_uint32 x.
Proof.
  unfold_ints. apply Z.mod_mod_divide.
  exists 4294967296. reflexivity.
Qed.

Lemma to_uint32_add_r (a b : Z) : to_uint32 (a + to_uint32 b) = to_uint32 (a + b).
Proof. unfold_ints. apply Z.add_mod_idemp_r; lia. Qed.

Lemma add_size_unsigned (sum : Z) (n : nat) :
  add_size sum n = CheckSumCombine_unsigned W64 sum (Z.of_nat n).
Proof.
  unfold add_size, CheckSumCombine_unsigned.
  now rewrite to_uint32_of_size_t, to_uint32_add_r.
Qed.

Lemma signed_min_promote_le (T : IntWidth) :
  signed_min (promote T) <= signed_min T.
Proof. destruct T; vm_compute; congruence. Qed.

Lemma std_abs_above_min (T : IntWidth) (t : Z) :
  signed_min T < t -> std_abs T t = Some (Z.abs t).
Proof.
  intros Ht. unfold std_abs.
  pose proof (signed_min_promote_le T).
  destruct (Z.eqb_spec t (signed_min (promote T))); [lia | reflexivity].
Qed.

(** ** The loop of the container overload *)

Lemma CheckSumCombine_container_unfold (c : list Value) (sum : Z) :
  CheckSumCombine sum (VContainer c) =
  (sum' <- combine_each c sum ;; Some (add_size sum' (List.length c))).
Proof.
  unfold combine_each. cbn [CheckSumCombine]. f_equal.
  generalize sum. induction c as [|t r IH]; intros acc; cbn [foldM].
  - reflexivity.
  - destruct (CheckSumCombine acc t) as [acc'|]; cbn [bind]; [apply IH | reflexivity].
Qed.

Lemma CheckSumCombine_signed_defined (T : IntWidth) (sum t : Z) :
  (t =? signed_min (promote T)) = false ->
  CheckSumCombine_signed T sum t =
  Some (to_uint32 (sum + to_uint32 (Z.abs t)) mod CHECKSUM_MODULUS).
Proof.
  intros Ht. unfold CheckSumCombine_signed, std_abs. now rewrite Ht.
Qed.

Lemma combine_each_in_range (c : list Value) :
  Forall (fun v => forall sum, in_accumulator_range sum ->
                   header_overload v = true -> defined v = true ->
                   exists sum', CheckSumCombine sum v = Some sum' /\
                                in_accumulator_range sum') c ->
  forall sum, in_accumulator_range sum ->
  forallb header_overload c = true -> forallb defined c = true ->
  exists sum', combine_each c sum = Some sum' /\ in_accumulator_range sum'.
Proof.
  unfold combine_each.
  induction 1 as [|t r Ht _ IH]; intros sum Hsum Hh Hd; cbn [foldM].
  - now exists sum.
  - cbn [forallb] in Hh, Hd.
    apply andb_true_iff in Hh as [Hh1 Hh2]. apply andb_true_iff in Hd as [Hd1 Hd2].
    destruct (Ht sum Hsum Hh1 Hd1) as (sum1 & -> & Hsum1). cbn [bind].
    now apply IH.
Qed.

Lemma combine_each_undefined_iff (c : list Value) :
  Forall (fun v => forall sum,
            CheckSumCombine sum v = None <-> defined v = false) c ->
  forall sum, combine_each c sum = None <-> forallb defined c = false.
Proof.
  unfold combine_each.
  induction 1 as [|t r Ht _ IH]; intros sum; cbn [foldM forallb].
  - split; discriminate.
  - specialize (Ht sum).
    destruct (CheckSumCombine sum t) as [sum1|]; cbn [bind].
    + destruct (defined t); cbn [andb].
      * apply IH.
      * destruct Ht as [_ Ht]. discriminate (Ht eq_refl).
    + destruct Ht as [Ht _]. rewrite (Ht eq_refl). now split.
Qed.

Lemma CheckSumCombine_None_iff (v : Value) :
  forall sum : Z, CheckSumCombine sum v = None <-> defined v = false.
Proof.
  induction v as [T t|T t|checksum|ordinal|k|k x IH|a b IHa IHb|c IH|s]
    using Value_nested_ind; intros sum; cbn [defined].
  - cbn [CheckSumCombine]. unfold CheckSumCombine_signed, std_abs.
    destruct (t =? signed_min (promote T)); cbn [bind negb]; split;
      congruence.
  - split; discriminate.
  - split; discriminate.
  - cbn [CheckSumCombine].
    unfold CheckSumCombine_enum, int_add, CheckSumCombine_signed, std_abs.
    cbn [promote].
    destruct (in_signedb W32 (ordinal + 10)); cbn [bind andb];
      [|now split].
    destruct (ordinal + 10 =? signed_min W32); cbn [bind negb]; split;
      congruence.
  - split; discriminate.
  - cbn [CheckSumCombine]. apply IH.
  - cbn [CheckSumCombine]. specialize (IHa sum).
    destruct (CheckSumCombine sum a) as [sum1|]; cbn [bind].
    + destruct (defined a); cbn [andb].
      * apply IHb.
      * destruct IHa as [_ IHa]. discriminate (IHa eq_refl).
    + destruct IHa as [IHa _]. rewrite (IHa eq_refl). now split.
  - rewrite CheckSumCombine_container_unfold.
    pose proof (combine_each_undefined_iff c IH sum) as Hc.
    destruct (combine_each c sum) as [sum1|]; cbn [bind].
    + destruct (forallb defined c); [split; discriminate|].
      destruct Hc as [_ Hc]. discriminate (Hc eq_refl).
    + destruct Hc as [Hc _]. rewrite (Hc eq_refl). now split.
  - split; discriminate.
Qed.

(** C1. Starting from an accumulator in [0, CHECKSUM_MODULUS), combining a
    value of one of the categories of [CheckSums.h] (signed or unsigned
    integer, enum, class with [GetCheckSum], pointer, pair, container) within
    defined behaviour returns, and the accumulator is again in
    [0, CHECKSUM_MODULUS). *)
Theorem CheckSumCombine_keeps_accumulator_in_range (v : Value) :
  forall sum : Z,
  in_accumulator_range sum ->
  header_overload v = true ->
  defined v = true ->
  exists sum', CheckSumCombine sum v = Some sum' /\ in_accumulator_range sum'.
Proof.
  induction v as [T t|T t|checksum|ordinal|k|k x IH|a b IHa IHb|c IH|s]
    using Value_nested_ind; intros sum Hsum Hh Hd.
  - cbn [defined] in Hd. apply negb_true_iff in Hd.
    cbn [CheckSumCombine]. rewrite (CheckSumCombine_signed_defined _ _ _ Hd).
    eexists; split; [reflexivity | apply reduced_in_range].
  - eexists; split; [reflexivity | apply reduced_in_range].
  - eexists; split; [reflexivity | apply reduced_in_range].
  - cbn [defined] in Hd. apply andb_true_iff in Hd as [Hr Hm].
    apply negb_true_iff in Hm.
    cbn [CheckSumCombine]. unfold CheckSumCombine_enum, int_add.
    rewrite Hr. cbn [bind].
    rewrite (CheckSumCombine_signed_defined W32 _ _ Hm).
    eexists; split; [reflexivity | apply reduced_in_range].
  - now exists sum.
  - cbn [CheckSumCombine]. now apply IH.
  - cbn [header_overload] in Hh. cbn [defined] in Hd.
    apply andb_true_iff in Hh as [Hha Hhb]. apply andb_true_iff in Hd as [Hda Hdb].
    cbn [CheckSumCombine].
    destruct (IHa sum Hsum Hha Hda) as (sum1 & -> & Hsum1). cbn [bind].
    now apply IHb.
  - rewrite CheckSumCombine_container_unfold.
    cbn [header_overload] in Hh. cbn [defined] in Hd.
    destruct (combine_each_in_range c IH sum Hsum Hh Hd) as (sum1 & -> & _).
    cbn [bind]. eexists; split; [reflexivity | apply reduced_in_range].
  - discriminate Hh.
Qed.

(** C2. Combining a container is the left fold of [CheckSumCombine] over its
    elements in iteration order, followed by adding [c.size()] and reducing
    modulo [CHECKSUM_MODULUS]; the elements are not reordered: two containers
    holding the same elements in a different order can combine to different
    sums. *)
Theorem CheckSumCombine_container_is_ordered_fold :
  (forall (c : list Value) (sum : Z),
     CheckSumCombine sum (VContainer c) =
     (sum' <- foldM CheckSumCombine c sum ;;
      Some (to_uint32 (sum' + Z.of_nat (List.length c)) mod CHECKSUM_MODULUS)))
  /\ (exists c c' : list Value,
        Permutation c c' /\
        CheckSumCombine 0 (VContainer c) <> CheckSumCombine 0 (VContainer c')).
Proof.
  split.
  - intros c sum. rewrite CheckSumCombine_container_unfold. unfold combine_each.
    destruct (foldM CheckSumCombine c sum) as [sum'|]; cbn [bind]; [|reflexivity].
    unfold add_size. now rewrite to_uint32_of_size_t.
  - exists [VUnsigned W32 1; VUnsigned W32 4294967295],
           [VUnsigned W32 4294967295; VUnsigned W32 1].
    split; [apply perm_swap | vm_compute; discriminate].
Qed.

(** C6. An absent raw, shared or unique pointer leaves the accumulator as it
    is and is no error; a present pointer combines exactly as the value it
    refers to. *)
Theorem CheckSumCombine_pointer (k : PtrKind) (sum : Z) :
  CheckSumCombine sum (VPointer k None) = Some sum
  /\ forall x : Value,
       CheckSumCombine sum (VPointer k (Some x)) = CheckSumCombine sum x.
Proof. split; [reflexivity | intros x; reflexivity]. Qed.

(** C7. A pair combines its first component and then its second into the
    intermediate sum, and the order matters: some pair and its swap combine
    to different sums. *)
Theorem CheckSumCombine_pair_in_order :
  (forall (sum : Z) (k v : Value),
     CheckSumCombine sum (VPair k v) =
     (sum1 <- CheckSumCombine sum k ;; CheckSumCombine sum1 v))
  /\ (exists k v : Value,
        CheckSumCombine 0 (VPair k v) <> CheckSumCombine 0 (VPair v k)).
Proof.
  split; [reflexivity|].
  exists (VUnsigned W32 1), (VUnsigned W32 4294967295).
  vm_compute; discriminate.
Qed.

(** ** The integer and enum overloads *)

(** C3, as stated, fails on a 64-bit argument: [static_cast<uint32_t>] drops
    the high half of 2^32 before anything is added. *)
Example CheckSumCombine_unsigned_truncates_uint64 :
  in_unsigned W64 4294967296 /\
  CheckSumCombine_unsigned W64 0 4294967296 <> 4294967296 mod CHECKSUM_MODULUS.
Proof. split; [vm_compute; split; discriminate | vm_compute; discriminate]. Qed.

(** C3, amended. From accumulator 0 an unsigned [u] combines to
    [(u mod 2^32) mod CHECKSUM_MODULUS]; this is [u mod CHECKSUM_MODULUS]
    whenever [u] fits 32 bits, so for every unsigned type up to [uint32_t]. *)
Theorem CheckSumCombine_unsigned_from_zero (T : IntWidth) (u : Z) :
  in_unsigned T u ->
  CheckSumCombine_unsigned T 0 u = to_uint32 u mod CHECKSUM_MODULUS
  /\ (u <= unsigned_max W32 ->
      CheckSumCombine_unsigned T 0 u = u mod CHECKSUM_MODULUS)
  /\ (T <> W64 -> CheckSumCombine_unsigned T 0 u = u mod CHECKSUM_MODULUS).
Proof.
  intros [Hlo Hhi].
  assert (Hcast : CheckSumCombine_unsigned T 0 u = to_uint32 u mod CHECKSUM_MODULUS).
  { unfold CheckSumCombine_unsigned. cbn [Z.add].
    now rewrite (to_uint32_small (to_uint32 u) (to_uint32_bounds u)). }
  assert (Hsmall : u <= unsigned_max W32 ->
                   CheckSumCombine_unsigned T 0 u = u mod CHECKSUM_MODULUS).
  { intros H32. rewrite Hcast, to_uint32_small; [reflexivity|].
    revert H32. unfold unsigned_max, bits. lia. }
  repeat split; [exact Hcast | exact Hsmall |].
  intros HT. apply Hsmall. revert Hhi. unfold unsigned_max.
  destruct T; cbn [bits]; try lia. congruence.
Qed.

(** C4. A signed [s] whose negation is a value of the same type combines
    like [-s] from every accumulator: the contribution is [abs(s)]. *)
Theorem CheckSumCombine_signed_discards_sign (T : IntWidth) (sum s : Z) :
  in_signed T s ->
  in_signed T (- s) ->
  CheckSumCombine_signed T sum s = CheckSumCombine_signed T sum (- s)
  /\ CheckSumCombine_signed T sum s =
     Some (to_uint32 (sum + to_uint32 (Z.abs s)) mod CHECKSUM_MODULUS).
Proof.
  intros [Hlo Hhi] [Hnlo Hnhi].
  assert (Hmax : signed_max T = - signed_min T - 1) by (unfold signed_max, signed_min; lia).
  assert (Hneg : signed_min T < 0) by (destruct T; reflexivity).
  pose proof (signed_min_promote_le T) as Hp.
  assert (Hs : (s =? signed_min (promote T)) = false) by (apply Z.eqb_neq; lia).
  assert (Hn : (- s =? signed_min (promote T)) = false) by (apply Z.eqb_neq; lia).
  rewrite (CheckSumCombine_signed_defined _ _ _ Hs).
  rewrite (CheckSumCombine_signed_defined _ _ _ Hn).
  now rewrite Z.abs_opp.
Qed.

(** C5. An enum whose ordinal [e] is an [int] with [e + 10] still an [int]
    combines as the signed integer [e + 10] does at [T = int], from every
    accumulator. *)
Theorem CheckSumCombine_enum_is_integer_path (sum ordinal : Z) :
  in_signed W32 ordinal ->
  in_signed W32 (ordinal + 10) ->
  CheckSumCombine_enum sum ordinal =
  CheckSumCombine_signed W32 sum (ordinal + 10)
  /\ CheckSumCombine_enum 0 ordinal =
     CheckSumCombine_signed W32 0 (ordinal + 10).
Proof.
  intros _ [Hlo Hhi].
  assert (Hr : in_signedb W32 (ordinal + 10) = true).
  { unfold in_signedb. apply andb_true_iff. split; now apply Z.leb_le. }
  unfold CheckSumCombine_enum, int_add. rewrite Hr. now split.
Qed.

(** C10. For a signed [t] above the minimum of its type [std::abs(t)] is
    defined and the step adds [|t|], converted to [uint32_t], and reduces
    modulo [CHECKSUM_MODULUS].  The magnitude of the minimum is not a value
    of the type, and where no promotion widens the argument ([int],
    [int64_t]) [std::abs] of the minimum overflows. *)
Theorem CheckSumCombine_signed_defined_above_min (T : IntWidth) (sum t : Z) :
  (signed_min T < t <= signed_max T ->
   std_abs T t = Some (Z.abs t) /\
   CheckSumCombine_signed T sum t =
   Some (to_uint32 (sum + to_uint32 (Z.abs t)) mod CHECKSUM_MODULUS))
  /\ ~ in_signed T (Z.abs (signed_min T))
  /\ (promote T = T ->
      std_abs T (signed_min T) = None /\
      CheckSumCombine_signed T sum (signed_min T) = None).
Proof.
  repeat split.
  - now apply std_abs_above_min.
  - unfold CheckSumCombine_signed. now rewrite std_abs_above_min.
  - destruct T; vm_compute; intros [_ H]; now apply H.
  - unfold std_abs. rewrite H. now rewrite Z.eqb_refl.
  - unfold CheckSumCombine_signed, std_abs. rewrite H. now rewrite Z.eqb_refl.
Qed.

(** ** The hull registry *)

Lemma CheckSumCombine_entry_value (sum : Z) (e : string * option ShipHull) :
  CheckSumCombine sum (entry_value e) = Some (CheckSumCombine_entry sum e).
Proof. destruct e as [name [hull|]]; reflexivity. Qed.

Lemma combine_each_registry (c : container_type) (sum : Z) :
  foldM CheckSumCombine (map entry_value c) sum =
  Some (fold_left CheckSumCombine_entry c sum).
Proof.
  revert sum. induction c as [|e r IH]; intros sum; cbn [map foldM fold_left].
  - reflexivity.
  - rewrite CheckSumCombine_entry_value. cbn [bind]. apply IH.
Qed.

Lemma CheckPendingShipHulls_resolved (c : container_type) :
  CheckPendingShipHulls {| m_pending_ship_hulls := None; m_hulls := c |} =
  {| m_pending_ship_hulls := None; m_hulls := c |}.
Proof. reflexivity. Qed.

Lemma CheckPendingShipHulls_idempotent (m : ShipHullManager) :
  CheckPendingShipHulls (CheckPendingShipHulls m) = CheckPendingShipHulls m.
Proof.
  destruct m as [[pending|] hulls]; reflexivity.
Qed.

Lemma query_state (q : Query) (m : ShipHullManager) :
  snd (query q m) = CheckPendingShipHulls m.
Proof. destruct q; reflexivity. Qed.

(** C8. [GetCheckSum] resolves pending content and returns what the container
    overload yields for the whole registry from accumulator 0: the fold of the
    entries in iteration order, then the entry count.  The value is a
    [uint32_t] below [CHECKSUM_MODULUS], depends on the stored content alone
    and is returned again by a repeated call. *)
Theorem GetCheckSum_is_container_rule (m : ShipHullManager) :
  let stored := m_hulls (CheckPendingShipHulls m) in
  snd (GetCheckSum m) = CheckPendingShipHulls m
  /\ foldM CheckSumCombine (map entry_value stored) 0 =
     Some (fold_left CheckSumCombine_entry stored 0)
  /\ fst (GetCheckSum m) =
     add_size (fold_left CheckSumCombine_entry stored 0) (List.length stored)
  /\ CheckSumCombine 0 (registry_value stored) = Some (fst (GetCheckSum m))
  /\ in_accumulator_range (fst (GetCheckSum m))
  /\ fst (GetCheckSum m) =
     fst (GetCheckSum {| m_pending_ship_hulls := None; m_hulls := stored |})
  /\ GetCheckSum (snd (GetCheckSum m)) =
     (fst (GetCheckSum m), snd (GetCheckSum m)).
Proof.
  intros stored. subst stored.
  assert (Hsize : fst (GetCheckSum m) =
                  add_size (fold_left CheckSumCombine_entry
                              (m_hulls (CheckPendingShipHulls m)) 0)
                           (List.length (m_hulls (CheckPendingShipHulls m)))).
  { unfold GetCheckSum. cbn [fst]. now rewrite add_size_unsigned. }
  split; [reflexivity|].
  split; [apply combine_each_registry|].
  split; [exact Hsize|].
  split.
  { unfold registry_value. rewrite CheckSumCombine_container_unfold.
    unfold combine_each. rewrite combine_each_registry. cbn [bind].
    now rewrite Hsize, length_map. }
  split; [unfold GetCheckSum; cbn [fst]; apply reduced_in_range|].
  split; [reflexivity|].
  unfold GetCheckSum. cbn [fst snd].
  now rewrite CheckPendingShipHulls_idempotent.
Qed.

(** C9. After [SetShipHulls] the first query, whichever it is, moves the
    pending collection into the hull map and clears the pending marker; a
    second query, whichever it is, leaves that state as it is, and repeating
    the first query gives the same answer. *)
Theorem query_resolves_once
    (m : ShipHullManager) (pending : Pending container_type) (q1 q2 : Query) :
  let first := query q1 (SetShipHulls pending m) in
  snd first = {| m_pending_ship_hulls := None; m_hulls := pending |}
  /\ CheckPendingShipHulls (snd first) = snd first
  /\ snd (query q2 (snd first)) = snd first
  /\ m_hulls (snd (query q2 (snd first))) = pending
  /\ fst (query q1 (snd first)) = fst first.
Proof.
  intros first. subst first.
  assert (H1 : snd (query q1 (SetShipHulls pending m)) =
               {| m_pending_ship_hulls := None; m_hulls := pending |}).
  { now rewrite query_state. }
  rewrite H1.
  split; [reflexivity|].
  split; [reflexivity|].
  split; [now rewrite query_state|].
  split; [now rewrite query_state|].
  destruct q1; reflexivity.
Qed.

(** ** Combination in the wrap-free range *)

Lemma add_wrap_free (sum a : Z) :
  in_accumulator_range sum -> 0 <= a <= WRAP_FREE_MAX ->
  to_uint32 (sum + to_uint32 a) mod CHECKSUM_MODULUS =
  (sum + a) mod CHECKSUM_MODULUS.
Proof.
  unfold WRAP_FREE_MAX. unfold_ints. intros Hsum Ha.
  rewrite (Z.mod_small a) by lia. now rewrite (Z.mod_small (sum + a)) by lia.
Qed.

Lemma add_size_wrap_free (sum : Z) (n : nat) :
  in_accumulator_range sum -> Z.of_nat n <= WRAP_FREE_MAX ->
  add_size sum n = (sum + Z.of_nat n) mod CHECKSUM_MODULUS.
Proof.
  intros Hsum Hn. rewrite add_size_unsigned. unfold CheckSumCombine_unsigned.
  apply add_wrap_free; [assumption | lia].
Qed.

Lemma add_class_wrap_free (sum checksum : Z) :
  in_accumulator_range sum -> 0 <= checksum <= WRAP_FREE_MAX ->
  CheckSumCombine_class sum checksum = (sum + checksum) mod CHECKSUM_MODULUS.
Proof.
  unfold CheckSumCombine_class, WRAP_FREE_MAX. unfold_ints. intros Hsum Hc.
  now rewrite (Z.mod_small (sum + checksum)) by lia.
Qed.

Lemma accumulate_reduced (sum a b : Z) :
  ((sum + a) mod CHECKSUM_MODULUS + b) mod CHECKSUM_MODULUS =
  (sum + (a + b)) mod CHECKSUM_MODULUS.
Proof.
  rewrite Z.add_mod_idemp_l by (unfold CHECKSUM_MODULUS; lia).
  f_equal. lia.
Qed.

Lemma combine_each_wrap_free (c : list Value) :
  Forall (fun v => forall sum, in_accumulator_range sum ->
                   wrap_free v = true -> defined v = true ->
                   CheckSumCombine sum v =
                   Some ((sum + contribution v) mod CHECKSUM_MODULUS)) c ->
  forall sum, in_accumulator_range sum ->
  forallb wrap_free c = true -> forallb defined c = true ->
  combine_each c sum =
  Some ((sum + fold_right Z.add 0 (map contribution c)) mod CHECKSUM_MODULUS).
Proof.
  unfold combine_each.
  induction 1 as [|t r Ht _ IH]; intros sum Hsum Hw Hd;
    cbn [foldM map fold_right].
  - rewrite Z.add_0_r. f_equal. symmetry. now apply Z.mod_small.
  - cbn [forallb] in Hw, Hd.
    apply andb_true_iff in Hw as [Hw1 Hw2]. apply andb_true_iff in Hd as [Hd1 Hd2].
    rewrite (Ht sum Hsum Hw1 Hd1). cbn [bind].
    rewrite (IH _ (reduced_in_range _) Hw2 Hd2). now rewrite accumulate_reduced.
Qed.

Lemma CheckSumCombine_wrap_free (v : Value) :
  forall sum : Z,
  in_accumulator_range sum -> wrap_free v = true -> defined v = true ->
  CheckSumCombine sum v = Some ((sum + contribution v) mod CHECKSUM_MODULUS).
Proof.
  induction v as [T t|T t|checksum|ordinal|k|k x IH|a b IHa IHb|c IH|s]
    using Value_nested_ind; intros sum Hsum Hw Hd;
    cbn [wrap_free] in Hw; cbn [defined] in Hd; cbn [contribution].
  - apply negb_true_iff in Hd. apply Z.leb_le in Hw.
    cbn [CheckSumCombine]. rewrite (CheckSumCombine_signed_defined _ _ _ Hd).
    rewrite add_wrap_free; [reflexivity | assumption | lia].
  - apply andb_true_iff in Hw as [Hlo Hhi].
    apply Z.leb_le in Hlo. apply Z.leb_le in Hhi.
    cbn [CheckSumCombine]. unfold CheckSumCombine_unsigned.
    rewrite add_wrap_free; [reflexivity | assumption | lia].
  - apply andb_true_iff in Hw as [Hlo Hhi].
    apply Z.leb_le in Hlo. apply Z.leb_le in Hhi.
    cbn [CheckSumCombine]. rewrite add_class_wrap_free; [reflexivity | assumption | lia].
  - apply andb_true_iff in Hd as [Hr Hm]. apply negb_true_iff in Hm.
    cbn [CheckSumCombine]. unfold CheckSumCombine_enum, int_add.
    rewrite Hr. cbn [bind]. rewrite (CheckSumCombine_signed_defined W32 _ _ Hm).
    rewrite add_wrap_free; [reflexivity | assumption |].
    unfold in_signedb in Hr. apply andb_true_iff in Hr as [Hlo Hhi].
    apply Z.leb_le in Hlo. apply Z.leb_le in Hhi.
    revert Hlo Hhi. unfold signed_min, signed_max, WRAP_FREE_MAX, bits.
    unfold_ints. lia.
  - cbn [CheckSumCombine]. rewrite Z.add_0_r. f_equal. symmetry.
    now apply Z.mod_small.
  - cbn [CheckSumCombine]. now apply IH.
  - apply andb_true_iff in Hw as [Hwa Hwb]. apply andb_true_iff in Hd as [Hda Hdb].
    cbn [CheckSumCombine]. rewrite (IHa sum Hsum Hwa Hda). cbn [bind].
    rewrite (IHb _ (reduced_in_range _) Hwb Hdb). now rewrite accumulate_reduced.
  - apply andb_true_iff in Hw as [Hwc Hn]. apply Z.leb_le in Hn.
    rewrite CheckSumCombine_container_unfold.
    rewrite (combine_each_wrap_free c IH sum Hsum Hwc Hd). cbn [bind].
    rewrite add_size_wrap_free; [| apply reduced_in_range | assumption].
    now rewrite accumulate_reduced.
  - discriminate Hw.
Qed.

Lemma forallb_Permutation {A : Type} (f : A -> bool) (l l' : list A) :
  Permutation l l' -> forallb f l = forallb f l'.
Proof.
  induction 1 as [|x l l' _ IH|x y l|l l' l'' _ IH1 _ IH2]; cbn [forallb].
  - reflexivity.
  - now rewrite IH.
  - now rewrite !andb_assoc, (andb_comm (f y) (f x)).
  - now rewrite IH1.
Qed.

Lemma sum_Permutation (l l' : list Z) :
  Permutation l l' -> fold_right Z.add 0 l = fold_right Z.add 0 l'.
Proof.
  induction 1 as [|x l l' _ IH|x y l|l l' l'' _ IH1 _ IH2]; cbn [fold_right];
    lia.
Qed.

Lemma contribution_Permutation (c c' : list Value) :
  Permutation c c' ->
  contribution (VContainer c) = contribution (VContainer c').
Proof.
  intros Hp. cbn [contribution].
  rewrite (sum_Permutation _ _ (Permutation_map contribution Hp)).
  now rewrite (Permutation_length Hp).
Qed.

(** X2. In the wrap-free range the combinator is a plain sum: from a reduced
    accumulator, a value of the header's categories whose single addends are
    at most [2^32 - CHECKSUM_MODULUS] combines to the accumulator plus the
    value's total contribution, reduced modulo [CHECKSUM_MODULUS]. *)
Theorem CheckSumCombine_is_sum_of_contributions (v : Value) (sum : Z) :
  in_accumulator_range sum ->
  wrap_free v = true ->
  defined v = true ->
  CheckSumCombine sum v = Some ((sum + contribution v) mod CHECKSUM_MODULUS).
Proof. apply CheckSumCombine_wrap_free. Qed.

(** X3. In the wrap-free range the order of a container's elements does not
    show in the checksum: a container and any permutation of it combine to
    the same sum. *)
Theorem CheckSumCombine_container_permutation (c c' : list Value) (sum : Z) :
  Permutation c c' ->
  in_accumulator_range sum ->
  wrap_free (VContainer c) = true ->
  defined (VContainer c) = true ->
  CheckSumCombine sum (VContainer c) = CheckSumCombine sum (VContainer c').
Proof.
  intros Hp Hsum Hw Hd.
  assert (Hw' : wrap_free (VContainer c') = true).
  { cbn [wrap_free] in *.
    now rewrite <- (forallb_Permutation wrap_free _ _ Hp), <- (Permutation_length Hp). }
  assert (Hd' : defined (VContainer c') = true).
  { cbn [defined] in *. now rewrite <- (forallb_Permutation defined _ _ Hp). }
  rewrite (CheckSumCombine_wrap_free _ sum Hsum Hw Hd).
  rewrite (CheckSumCombine_wrap_free _ sum Hsum Hw' Hd').
  now rewrite (contribution_Permutation _ _ Hp).
Qed.

(** X4. In the wrap-free range a pair and its swap combine to the same sum. *)
Theorem CheckSumCombine_pair_swap (a b : Value) (sum : Z) :
  in_accumulator_range sum ->
  wrap_free (VPair a b) = true ->
  defined (VPair a b) = true ->
  CheckSumCombine sum (VPair a b) = CheckSumCombine sum (VPair b a).
Proof.
  intros Hsum Hw Hd.
  assert (Hw' : wrap_free (VPair b a) = true)
    by (cbn [wrap_free] in *; now rewrite andb_comm).
  assert (Hd' : defined (VPair b a) = true)
    by (cbn [defined] in *; now rewrite andb_comm).
  rewrite (CheckSumCombine_wrap_free _ sum Hsum Hw Hd).
  rewrite (CheckSumCombine_wrap_free _ sum Hsum Hw' Hd').
  cbn [contribution]. do 2 f_equal. lia.
Qed.

(** ** Defined behaviour and the range of the result *)


Lemma CheckSumCombine_reduced_or_unchanged (v : Value) :
  forall sum sum' : Z,
  header_overload v = true ->
  CheckSumCombine sum v = Some sum' ->
  in_accumulator_range sum' \/ sum' = sum.
Proof.
  induction v as [T t|T t|checksum|ordinal|k|k x IH|a b IHa IHb|c _|s]
    using Value_nested_ind; intros sum sum' Hh Hc; cbn [header_overload] in Hh.
  - cbn [CheckSumCombine] in Hc. unfold CheckSumCombine_signed in Hc.
    destruct (std_abs T t); cbn [bind] in Hc; [|discriminate].
    injection Hc as <-. left. apply reduced_in_range.
  - injection Hc as <-. left. apply reduced_in_range.
  - injection Hc as <-. left. apply reduced_in_range.
  - cbn [CheckSumCombine] in Hc.
    unfold CheckSumCombine_enum, CheckSumCombine_signed in Hc.
    destruct (int_add ordinal 10) as [i|]; cbn [bind] in Hc; [|discriminate].
    destruct (std_abs W32 i); cbn [bind] in Hc; [|discriminate].
    injection Hc as <-. left. apply reduced_in_range.
  - injection Hc as <-. now right.
  - cbn [CheckSumCombine] in Hc. now apply IH.
  - apply andb_true_iff in Hh as [Hha Hhb]. cbn [CheckSumCombine] in Hc.
    destruct (CheckSumCombine sum a) as [sum1|] eqn:Ha; cbn [bind] in Hc;
      [|discriminate].
    destruct (IHb _ _ Hhb Hc) as [Hr | ->]; [now left|].
    exact (IHa _ _ Hha Ha).
  - rewrite CheckSumCombine_container_unfold in Hc.
    destruct (combine_each c sum); cbn [bind] in Hc; [|discriminate].
    injection Hc as <-. left. apply reduced_in_range.
  - discriminate Hh.
Qed.

(** X13. From any accumulator, reduced or not, combining a value of the
    header's categories within defined behaviour returns a sum that is either
    reduced below [CHECKSUM_MODULUS] or the accumulator it started from (only
    absent pointers are met); a container always returns a reduced sum. *)
Theorem CheckSumCombine_reduces_or_keeps (v : Value) (sum : Z) :
  header_overload v = true ->
  defined v = true ->
  exists sum',
    CheckSumCombine sum v = Some sum' /\
    (in_accumulator_range sum' \/ sum' = sum) /\
    (forall c, v = VContainer c -> in_accumulator_range sum').
Proof.
  intros Hh Hd.
  destruct (CheckSumCombine sum v) as [sum'|] eqn:Hc.
  - exists sum'. split; [reflexivity|]. split.
    + exact (CheckSumCombine_reduced_or_unchanged v sum sum' Hh Hc).
    + intros c ->. rewrite CheckSumCombine_container_unfold in Hc.
      destruct (combine_each c sum); cbn [bind] in Hc; [|discriminate].
      injection Hc as <-. apply reduced_in_range.
  - apply CheckSumCombine_None_iff in Hc. congruence.
Qed.

(** ** How combinations compose *)

Lemma foldM_app {A S : Type} (step : S -> A -> option S) (l1 l2 : list A) (s : S) :
  foldM step (l1 ++ l2) s = (s1 <- foldM step l1 s ;; foldM step l2 s1).
Proof.
  revert s. induction l1 as [|a r IH]; intros s; cbn [app foldM bind].
  - reflexivity.
  - destruct (step s a) as [s'|]; cbn [bind]; [apply IH | reflexivity].
Qed.

(** X5. Nesting of pairs does not show in the checksum: [((a, b), c)] and
    [(a, (b, c))] combine alike from every accumulator, defined or not. *)
Theorem CheckSumCombine_pair_nesting (a b c : Value) (sum : Z) :
  CheckSumCombine sum (VPair (VPair a b) c) =
  CheckSumCombine sum (VPair a (VPair b c)).
Proof.
  cbn [CheckSumCombine].
  destruct (CheckSumCombine sum a) as [sum1|]; cbn [bind]; reflexivity.
Qed.

(** X6. Combining the concatenation of two containers runs the loop over the
    first, continues over the second from the sum reached, and adds the two
    sizes once at the end. *)
Theorem CheckSumCombine_container_app (c1 c2 : list Value) (sum : Z) :
  CheckSumCombine sum (VContainer (c1 ++ c2)) =
  (sum1 <- foldM CheckSumCombine c1 sum ;;
   sum2 <- foldM CheckSumCombine c2 sum1 ;;
   Some (add_size sum2 (List.length c1 + List.length c2))).
Proof.
  rewrite CheckSumCombine_container_unfold. unfold combine_each.
  rewrite foldM_app, length_app.
  destruct (foldM CheckSumCombine c1 sum) as [sum1|]; reflexivity.
Qed.

(** ** Collisions and injectivity of the integer overloads *)

Lemma reduced_sum_injective (sum t1 t2 : Z) :
  in_accumulator_range sum ->
  0 <= t1 < CHECKSUM_MODULUS -> 0 <= t2 < CHECKSUM_MODULUS ->
  (sum + t1) mod CHECKSUM_MODULUS = (sum + t2) mod CHECKSUM_MODULUS ->
  t1 = t2.
Proof.
  clear CheckSumCombine_string.
  unfold_ints. intros Hsum H1 H2 Heq.
  Z.to_euclidean_division_equations. lia.
Qed.

Lemma CheckSumCombine_unsigned_small (T : IntWidth) (sum t : Z) :
  in_accumulator_range sum -> 0 <= t <= WRAP_FREE_MAX ->
  CheckSumCombine_unsigned T sum t = (sum + t) mod CHECKSUM_MODULUS.
Proof. intros Hsum Ht. unfold CheckSumCombine_unsigned. now apply add_wrap_free. Qed.

Lemma CheckSumCombine_enum_small (sum ordinal : Z) :
  in_accumulator_range sum ->
  -10 <= ordinal < CHECKSUM_MODULUS - 10 ->
  CheckSumCombine_enum sum ordinal =
  Some ((sum + (ordinal + 10)) mod CHECKSUM_MODULUS).
Proof.
  intros Hsum He.
  assert (Hr : in_signedb W32 (ordinal + 10) = true).
  { unfold in_signedb. apply andb_true_iff.
    split; apply Z.leb_le; revert He;
      unfold signed_min, signed_max, bits, CHECKSUM_MODULUS; lia. }
  assert (Hm : (ordinal + 10 =? signed_min (promote W32)) = false).
  { apply Z.eqb_neq. revert He. unfold signed_min, promote, bits. lia. }
  unfold CheckSumCombine_enum, int_add. rewrite Hr. cbn [bind].
  rewrite (CheckSumCombine_signed_defined W32 _ _ Hm).
  rewrite add_wrap_free; [| assumption |].
  - now rewrite Z.abs_eq by lia.
  - revert He. unfold WRAP_FREE_MAX. unfold_ints. lia.
Qed.

(** X7. The unsigned overload sees its argument modulo 2^32 only: two values
    that differ by a multiple of 2^32 combine alike from every accumulator,
    whatever their types. *)
Theorem CheckSumCombine_unsigned_high_bits_ignored
    (T T' : IntWidth) (sum t k : Z) :
  CheckSumCombine_unsigned T sum (t + k * 2 ^ 32) =
  CheckSumCombine_unsigned T' sum t.
Proof.
  unfold CheckSumCombine_unsigned, to_uint32.
  now rewrite (Z.mod_add t k (2 ^ 32)) by (change (2 ^ 32) with 4294967296; lia).
Qed.

(** X8. From a reduced accumulator, two different unsigned values below
    [CHECKSUM_MODULUS] combine to different sums. *)
Theorem CheckSumCombine_unsigned_distinguishes_below_modulus
    (T T' : IntWidth) (sum t1 t2 : Z) :
  in_accumulator_range sum ->
  0 <= t1 < CHECKSUM_MODULUS ->
  0 <= t2 < CHECKSUM_MODULUS ->
  t1 <> t2 ->
  CheckSumCombine_unsigned T sum t1 <> CheckSumCombine_unsigned T' sum t2.
Proof.
  intros Hsum H1 H2 Hne Heq.
  rewrite !CheckSumCombine_unsigned_small in Heq;
    try assumption; try (revert H1 H2; unfold WRAP_FREE_MAX; unfold_ints; lia).
  apply Hne. exact (reduced_sum_injective sum t1 t2 Hsum H1 H2 Heq).
Qed.

(** X9. From a reduced accumulator, an unsigned value and the same value plus
    a multiple of [CHECKSUM_MODULUS] collide, as long as the larger one is at
    most [2^32 - CHECKSUM_MODULUS]. *)
Theorem CheckSumCombine_unsigned_collides_modulo
    (T T' : IntWidth) (sum t k : Z) :
  in_accumulator_range sum ->
  0 <= t ->
  0 <= k ->
  t + k * CHECKSUM_MODULUS <= WRAP_FREE_MAX ->
  CheckSumCombine_unsigned T sum (t + k * CHECKSUM_MODULUS) =
  CheckSumCombine_unsigned T' sum t.
Proof.
  intros Hsum Ht Hk Hmax.
  assert (HM : 0 < CHECKSUM_MODULUS) by (unfold CHECKSUM_MODULUS; lia).
  rewrite !CheckSumCombine_unsigned_small; try assumption; try nia.
  rewrite Z.add_assoc. apply Z.mod_add. lia.
Qed.

(** X10. From a reduced accumulator, two different enum ordinals from -10 up
    to [CHECKSUM_MODULUS - 11] are both combined within defined behaviour
    and to different sums. *)
Theorem CheckSumCombine_enum_distinguishes_ordinals (sum e1 e2 : Z) :
  in_accumulator_range sum ->
  -10 <= e1 < CHECKSUM_MODULUS - 10 ->
  -10 <= e2 < CHECKSUM_MODULUS - 10 ->
  e1 <> e2 ->
  CheckSumCombine_enum sum e1 <> None /\
  CheckSumCombine_enum sum e2 <> None /\
  CheckSumCombine_enum sum e1 <> CheckSumCombine_enum sum e2.
Proof.
  intros Hsum H1 H2 Hne.
  rewrite (CheckSumCombine_enum_small sum e1 Hsum H1).
  rewrite (CheckSumCombine_enum_small sum e2 Hsum H2).
  repeat split; try discriminate.
  intros Heq. injection Heq as Heq. apply Hne.
  assert (e1 + 10 = e2 + 10); [|lia].
  apply (reduced_sum_injective sum); try assumption; lia.
Qed.

(** ** [ShipSlotType] and [ShipHull] *)

Lemma ShipSlotType_ordinal_injective (t1 t2 : ShipSlotType) :
  ShipSlotType_ordinal t1 = ShipSlotType_ordinal t2 -> t1 = t2.
Proof. destruct t1, t2; cbn; intros H; try reflexivity; discriminate H. Qed.

Lemma ShipSlotType_ordinal_bounds (t : ShipSlotType) :
  -10 <= ShipSlotType_ordinal t < CHECKSUM_MODULUS - 10.
Proof. destruct t; cbn; unfold CHECKSUM_MODULUS; lia. Qed.

(** X11. Every [ShipSlotType], [INVALID_SHIP_SLOT_TYPE] included, is combined
    within defined behaviour and adds its ordinal plus 10; different slot
    types give different sums from the same reduced accumulator. *)
Theorem CheckSumCombine_ShipSlotType (sum : Z) (t1 t2 : ShipSlotType) :
  in_accumulator_range sum ->
  CheckSumCombine_enum sum (ShipSlotType_ordinal t1) =
  Some ((sum + (ShipSlotType_ordinal t1 + 10)) mod CHECKSUM_MODULUS)
  /\ (CheckSumCombine_enum sum (ShipSlotType_ordinal t1) =
      CheckSumCombine_enum sum (ShipSlotType_ordinal t2) <-> t1 = t2).
Proof.
  intros Hsum.
  rewrite !CheckSumCombine_enum_small;
    try assumption; try apply ShipSlotType_ordinal_bounds.
  split; [reflexivity|]. split.
  - intros Heq. injection Heq as Heq. apply ShipSlotType_ordinal_injective.
    assert (ShipSlotType_ordinal t1 + 10 = ShipSlotType_ordinal t2 + 10); [|lia].
    pose proof (ShipSlotType_ordinal_bounds t1).
    pose proof (ShipSlotType_ordinal_bounds t2).
    apply (reduced_sum_injective sum); try assumption; lia.
  - now intros ->.
Qed.

(** X12. [HasTag] answers membership: it is true exactly for the tags that
    occur in [m_tags], compared as whole strings. *)
Theorem HasTag_iff_In (m_tags : list string) (tag : string) :
  HasTag m_tags tag = true <-> In tag m_tags.
Proof.
  unfold HasTag. rewrite existsb_exists. split.
  - intros (t & Hin & Heq). apply String.eqb_eq in Heq. now subst.
  - intros Hin. exists tag. split; [assumption | apply String.eqb_refl].
Qed.

End Combinator.

(** ** Concrete runs *)

(** Two hulls, each standing for what its [GetCheckSum()] returns: the
    pending collection is resolved by the first query, and the checksum is
    the fold of name, hull, name, hull and then the entry count. *)
Example GetCheckSum_two_hulls :
  let hulls := [("Basic Hull"%string, Some 111); ("Heavy Hull"%string, Some 222)] in
  let m := SetShipHulls Z hulls (mkShipHullManager Z None []) in
  GetCheckSum sample_string_overload Z (fun hull => hull) m =
  (355, mkShipHullManager Z None hulls)
  /\ CheckSumCombine sample_string_overload 0
       (registry_value Z (fun hull => hull) hulls) = Some 355
  /\ fst (GetShipHull Z "Heavy Hull" m) = Some 222
  /\ fst (GetShipHull Z "Light Hull" m) = None
  /\ fst (size Z m) = 2%nat.
Proof. repeat split. Qed.

(** The sample value from an accumulator at the top of its range. *)
Example CheckSumCombine_sample_value :
  CheckSumCombine sample_string_overload 9999999 sample_value = Some 145.
Proof. reflexivity. Qed.

(** [std::abs] of the narrow minimum is computed in [int] and is defined;
    that of [INT_MIN] is not. *)
Example std_abs_int16_min : std_abs W16 (signed_min W16) = Some 32768.
Proof. reflexivity. Qed.

Example CheckSumCombine_int_min :
  CheckSumCombine sample_string_overload 0 (VSigned W32 (signed_min W32)) = None.
Proof. reflexivity. Qed.


Lemma CheckSumCombine_keeps_accumulator_in_range_witness :
  in_accumulator_range 9999999 /\
  header_overload sample_value = true /\
  defined sample_value = true /\
  exists sum',
    CheckSumCombine sample_string_overload 9999999 sample_value = Some sum' /\
    in_accumulator_range sum'.
Proof.
  assert (Hsum : in_accumulator_range 9999999)
    by (unfold in_accumulator_range, CHECKSUM_MODULUS; lia).
  assert (Hh : header_overload sample_value = true) by reflexivity.
  assert (Hd : defined sample_value = true) by reflexivity.
  repeat (split; [assumption|]).
  exact (CheckSumCombine_keeps_accumulator_in_range
           sample_string_overload sample_value 9999999 Hsum Hh Hd).
Defined.

Lemma CheckSumCombine_unsigned_from_zero_witness :
  in_unsigned W64 4294967301 /\
  CheckSumCombine_unsigned W64 0 4294967301 = 5.
Proof.
  assert (Hu : in_unsigned W64 4294967301)
    by (unfold in_unsigned, unsigned_max, bits; lia).
  split; [exact Hu|].
  destruct (CheckSumCombine_unsigned_from_zero W64 4294967301 Hu) as [Hcast _].
  rewrite Hcast. reflexivity.
Defined.

Lemma CheckSumCombine_signed_discards_sign_witness :
  in_signed W16 (-32767) /\ in_signed W16 (- -32767) /\
  CheckSumCombine_signed W16 9999000 (-32767) = Some 31767 /\
  CheckSumCombine_signed W16 9999000 (- -32767) = Some 31767.
Proof.
  assert (Hs : in_signed W16 (-32767))
    by (unfold in_signed, signed_min, signed_max, bits; lia).
  assert (Hn : in_signed W16 (- -32767))
    by (unfold in_signed, signed_min, signed_max, bits; lia).
  repeat (split; [assumption|]).
  destruct (CheckSumCombine_signed_discards_sign W16 9999000 (-32767) Hs Hn)
    as [Heq Habs].
  rewrite <- Heq, Habs. split; reflexivity.
Defined.

Lemma CheckSumCombine_enum_is_integer_path_witness :
  in_signed W32 (ShipSlotType_ordinal INVALID_SHIP_SLOT_TYPE) /\
  in_signed W32 (ShipSlotType_ordinal INVALID_SHIP_SLOT_TYPE + 10) /\
  CheckSumCombine_enum 5 (ShipSlotType_ordinal INVALID_SHIP_SLOT_TYPE) =
  CheckSumCombine_signed W32 5 9.
Proof.
  assert (He : in_signed W32 (ShipSlotType_ordinal INVALID_SHIP_SLOT_TYPE))
    by (unfold in_signed, signed_min, signed_max, bits; cbn; lia).
  assert (Hi : in_signed W32 (ShipSlotType_ordinal INVALID_SHIP_SLOT_TYPE + 10))
    by (unfold in_signed, signed_min, signed_max, bits; cbn; lia).
  repeat (split; [assumption|]).
  exact (proj1 (CheckSumCombine_enum_is_integer_path
                  5 (ShipSlotType_ordinal INVALID_SHIP_SLOT_TYPE) He Hi)).
Defined.

Lemma CheckSumCombine_signed_defined_above_min_witness :
  signed_min W32 < -2147483647 <= signed_max W32 /\
  CheckSumCombine_signed W32 1 (-2147483647) = Some 7483648 /\
  CheckSumCombine_signed W32 1 (signed_min W32) = None.
Proof.
  assert (Ht : signed_min W32 < -2147483647 <= signed_max W32)
    by (unfold signed_min, signed_max, bits; lia).
  destruct (CheckSumCombine_signed_defined_above_min W32 1 (-2147483647))
    as (Habove & _ & Hmin).
  split; [exact Ht|]. split.
  - rewrite (proj2 (Habove Ht)). reflexivity.
  - exact (proj2 (Hmin eq_refl)).
Defined.

Lemma CheckSumCombine_is_sum_of_contributions_witness :
  let v := VContainer [ VPair (VSigned W32 (-7)) (VEnum 2);
                        VPointer RawPtr None; VClass 123 ] in
  (in_accumulator_range 9999999 /\ wrap_free v = true /\ defined v = true) /\
  CheckSumCombine sample_string_overload 9999999 v = Some 144.
Proof.
  intros v.
  assert (Hsum : in_accumulator_range 9999999)
    by (unfold in_accumulator_range, CHECKSUM_MODULUS; lia).
  assert (Hw : wrap_free v = true) by reflexivity.
  assert (Hd : defined v = true) by reflexivity.
  split; [exact (conj Hsum (conj Hw Hd))|].
  rewrite (CheckSumCombine_is_sum_of_contributions
             sample_string_overload v 9999999 Hsum Hw Hd).
  reflexivity.
Defined.

Lemma CheckSumCombine_container_permutation_witness :
  let c := [VUnsigned W32 1; VSigned W32 (-2)] in
  let c' := [VSigned W32 (-2); VUnsigned W32 1] in
  (in_accumulator_range 5 /\ wrap_free (VContainer c) = true /\
   defined (VContainer c) = true) /\
  CheckSumCombine sample_string_overload 5 (VContainer c) =
  CheckSumCombine sample_string_overload 5 (VContainer c').
Proof.
  intros c c'.
  assert (Hsum : in_accumulator_range 5)
    by (unfold in_accumulator_range, CHECKSUM_MODULUS; lia).
  assert (Hw : wrap_free (VContainer c) = true) by reflexivity.
  assert (Hd : defined (VContainer c) = true) by reflexivity.
  split; [exact (conj Hsum (conj Hw Hd))|].
  exact (CheckSumCombine_container_permutation
           sample_string_overload c c' 5 (perm_swap _ _ _) Hsum Hw Hd).
Defined.

Lemma CheckSumCombine_pair_swap_witness :
  let a := VSigned W32 (-3) in
  let b := VUnsigned W8 200 in
  (in_accumulator_range 5 /\ wrap_free (VPair a b) = true /\
   defined (VPair a b) = true) /\
  CheckSumCombine sample_string_overload 5 (VPair a b) =
  CheckSumCombine sample_string_overload 5 (VPair b a).
Proof.
  intros a b.
  assert (Hsum : in_accumulator_range 5)
    by (unfold in_accumulator_range, CHECKSUM_MODULUS; lia).
  assert (Hw : wrap_free (VPair a b) = true) by reflexivity.
  assert (Hd : defined (VPair a b) = true) by reflexivity.
  split; [exact (conj Hsum (conj Hw Hd))|].
  exact (CheckSumCombine_pair_swap sample_string_overload a b 5 Hsum Hw Hd).
Defined.

Lemma CheckSumCombine_reduces_or_keeps_witness :
  (header_overload sample_value = true /\ defined sample_value = true) /\
  exists sum',
    CheckSumCombine sample_string_overload 4294967295 sample_value = Some sum' /\
    (in_accumulator_range sum' \/ sum' = 4294967295) /\
    (forall c, sample_value = VContainer c -> in_accumulator_range sum').
Proof.
  assert (Hh : header_overload sample_value = true) by reflexivity.
  assert (Hd : defined sample_value = true) by reflexivity.
  split; [split; assumption|].
  exact (CheckSumCombine_reduces_or_keeps
           sample_string_overload sample_value 4294967295 Hh Hd).
Defined.

Lemma CheckSumCombine_unsigned_distinguishes_below_modulus_witness :
  (in_accumulator_range 7 /\ 0 <= 1 < CHECKSUM_MODULUS /\
   0 <= 9999999 < CHECKSUM_MODULUS) /\
  (CheckSumCombine_unsigned W32 7 1 = CheckSumCombine_unsigned W64 7 9999999 ->
   False).
Proof.
  assert (Hsum : in_accumulator_range 7)
    by (unfold in_accumulator_range, CHECKSUM_MODULUS; lia).
  assert (H1 : 0 <= 1 < CHECKSUM_MODULUS) by (unfold CHECKSUM_MODULUS; lia).
  assert (H2 : 0 <= 9999999 < CHECKSUM_MODULUS) by (unfold CHECKSUM_MODULUS; lia).
  assert (Hne : 1 <> 9999999) by discriminate.
  split; [exact (conj Hsum (conj H1 H2))|].
  exact (CheckSumCombine_unsigned_distinguishes_below_modulus
           W32 W64 7 1 9999999 Hsum H1 H2 Hne).
Defined.

Lemma CheckSumCombine_unsigned_collides_modulo_witness :
  (in_accumulator_range 7 /\ 0 <= 5 /\ 0 <= 3 /\
   5 + 3 * CHECKSUM_MODULUS <= WRAP_FREE_MAX) /\
  CheckSumCombine_unsigned W32 7 (5 + 3 * CHECKSUM_MODULUS) =
  CheckSumCombine_unsigned W8 7 5.
Proof.
  assert (Hsum : in_accumulator_range 7)
    by (unfold in_accumulator_range, CHECKSUM_MODULUS; lia).
  assert (Ht : 0 <= 5) by lia.
  assert (Hk : 0 <= 3) by lia.
  assert (Hmax : 5 + 3 * CHECKSUM_MODULUS <= WRAP_FREE_MAX)
    by (unfold WRAP_FREE_MAX, CHECKSUM_MODULUS; lia).
  split; [exact (conj Hsum (conj Ht (conj Hk Hmax)))|].
  exact (CheckSumCombine_unsigned_collides_modulo W32 W8 7 5 3 Hsum Ht Hk Hmax).
Defined.

Lemma CheckSumCombine_enum_distinguishes_ordinals_witness :
  (in_accumulator_range 0 /\ -10 <= -1 < CHECKSUM_MODULUS - 10 /\
   -10 <= 1 < CHECKSUM_MODULUS - 10) /\
  CheckSumCombine_enum 0 (-1) <> None /\
  CheckSumCombine_enum 0 1 <> None /\
  CheckSumCombine_enum 0 (-1) <> CheckSumCombine_enum 0 1.
Proof.
  assert (Hsum : in_accumulator_range 0)
    by (unfold in_accumulator_range, CHECKSUM_MODULUS; lia).
  assert (H1 : -10 <= -1 < CHECKSUM_MODULUS - 10) by (unfold CHECKSUM_MODULUS; lia).
  assert (H2 : -10 <= 1 < CHECKSUM_MODULUS - 10) by (unfold CHECKSUM_MODULUS; lia).
  assert (Hne : -1 <> 1) by discriminate.
  split; [exact (conj Hsum (conj H1 H2))|].
  exact (CheckSumCombine_enum_distinguishes_ordinals 0 (-1) 1 Hsum H1 H2 Hne).
Defined.

Lemma CheckSumCombine_ShipSlotType_witness :
  in_accumulator_range 9999995 /\
  CheckSumCombine_enum 9999995 (ShipSlotType_ordinal INVALID_SHIP_SLOT_TYPE) =
  Some 4 /\
  (CheckSumCombine_enum 9999995 (ShipSlotType_ordinal INVALID_SHIP_SLOT_TYPE) =
   CheckSumCombine_enum 9999995 (ShipSlotType_ordinal SL_INTERNAL) <->
   INVALID_SHIP_SLOT_TYPE = SL_INTERNAL).
Proof.
  assert (Hsum : in_accumulator_range 9999995)
    by (unfold in_accumulator_range, CHECKSUM_MODULUS; lia).
  split; [assumption|].
  exact (CheckSumCombine_ShipSlotType
           9999995 INVALID_SHIP_SLOT_TYPE SL_INTERNAL Hsum).
Defined.
